(** * Pod lifecycle reconciliation of the virtual kubelet (vkubelet/pod.go)

    A shallow embedding of [createPod], [deletePod], [updatePodStatuses] and
    [updatePodStatus].  Pods live in a heap of pod objects and are handed
    around by pointer, as in the Go code; every call that leaves the package
    (provider, Kubernetes client, clock, context, tracing span, logger) is
    either an oracle of the environment or an event appended to a log. *)

From Stdlib Require Import ZArith String List Bool Lia.
From stdpp Require Import base option list.

Open Scope string_scope.
Open Scope list_scope.
Open Scope Z_scope.

(** ** Time  (time.Time, metav1.Time)

    An instant is its number of nanoseconds on the wall clock; the range of
    time.Time (hundreds of billions of years) is not modelled. *)

Definition Time := Z.
Definition Duration := Z.

Definition time_Minute : Duration := 60 * 1000000000.
Definition Time_Add (t : Time) (d : Duration) : Time := t + d.
Definition Time_Before (t u : Time) : bool := t <? u.

(** ** The Kubernetes API objects (the fields pod.go reads or writes) *)

Record corev1_ContainerStateWaiting := {
  Waiting_Reason : string;
  Waiting_Message : string
}.

Record corev1_ContainerStateRunning := {
  StartedAt : Time
}.

Record corev1_ContainerStateTerminated := {
  ExitCode : Z;
  Signal : Z;
  Terminated_Reason : string;
  Terminated_Message : string;
  Terminated_StartedAt : Time;
  FinishedAt : Time;
  Terminated_ContainerID : string
}.

(** The three members are pointers in Go: [None] is the nil pointer. *)
Record corev1_ContainerState := {
  Waiting : option corev1_ContainerStateWaiting;
  Running : option corev1_ContainerStateRunning;
  Terminated : option corev1_ContainerStateTerminated
}.

Record corev1_ContainerStatus := {
  ContainerStatus_Name : string;
  State : corev1_ContainerState;
  Ready : bool;
  RestartCount : Z;
  Image : string;
  ContainerID : string
}.

(** PodPhase and RestartPolicy are string types in Go. *)
Definition corev1_PodPhase := string.
Definition corev1_PodPending : corev1_PodPhase := "Pending".
Definition corev1_PodRunning : corev1_PodPhase := "Running".
Definition corev1_PodSucceeded : corev1_PodPhase := "Succeeded".
Definition corev1_PodFailed : corev1_PodPhase := "Failed".

Definition corev1_RestartPolicy := string.
Definition corev1_RestartPolicyNever : corev1_RestartPolicy := "Never".

Record corev1_PodStatus := {
  Phase : corev1_PodPhase;
  Message : string;
  Reason : string;
  HostIP : string;
  PodIP : string;
  ContainerStatuses : list corev1_ContainerStatus
}.

Record corev1_Container := {
  Container_Name : string;
  Container_Image : string
}.

Record corev1_PodSpec := {
  Containers : list corev1_Container;
  RestartPolicy : corev1_RestartPolicy
}.

Record metav1_ObjectMeta := {
  Name : string;
  Namespace : string;
  UID : string;
  ResourceVersion : string;
  CreationTimestamp : Time
}.

Record corev1_Pod := {
  ObjectMeta : metav1_ObjectMeta;
  Spec : corev1_PodSpec;
  Status : corev1_PodStatus
}.

(** Field assignments. *)

Definition set_ResourceVersion (v : string) (pod : corev1_Pod) : corev1_Pod :=
  {| ObjectMeta := {| Name := Name (ObjectMeta pod);
                      Namespace := Namespace (ObjectMeta pod);
                      UID := UID (ObjectMeta pod);
                      ResourceVersion := v;
                      CreationTimestamp := CreationTimestamp (ObjectMeta pod) |};
     Spec := Spec pod;
     Status := Status pod |}.

Definition set_Status (st : corev1_PodStatus) (pod : corev1_Pod) : corev1_Pod :=
  {| ObjectMeta := ObjectMeta pod; Spec := Spec pod; Status := st |}.

Definition set_Phase (v : corev1_PodPhase) (pod : corev1_Pod) : corev1_Pod :=
  set_Status {| Phase := v;
                Message := Message (Status pod);
                Reason := Reason (Status pod);
                HostIP := HostIP (Status pod);
                PodIP := PodIP (Status pod);
                ContainerStatuses := ContainerStatuses (Status pod) |} pod.

Definition set_Reason (v : string) (pod : corev1_Pod) : corev1_Pod :=
  set_Status {| Phase := Phase (Status pod);
                Message := Message (Status pod);
                Reason := v;
                HostIP := HostIP (Status pod);
                PodIP := PodIP (Status pod);
                ContainerStatuses := ContainerStatuses (Status pod) |} pod.

Definition set_Message (v : string) (pod : corev1_Pod) : corev1_Pod :=
  set_Status {| Phase := Phase (Status pod);
                Message := v;
                Reason := Reason (Status pod);
                HostIP := HostIP (Status pod);
                PodIP := PodIP (Status pod);
                ContainerStatuses := ContainerStatuses (Status pod) |} pod.

Definition set_ContainerStatuses (v : list corev1_ContainerStatus)
    (pod : corev1_Pod) : corev1_Pod :=
  set_Status {| Phase := Phase (Status pod);
                Message := Message (Status pod);
                Reason := Reason (Status pod);
                HostIP := HostIP (Status pod);
                PodIP := PodIP (Status pod);
                ContainerStatuses := v |} pod.

Definition set_State (v : corev1_ContainerState)
    (c : corev1_ContainerStatus) : corev1_ContainerStatus :=
  {| ContainerStatus_Name := ContainerStatus_Name c;
     State := v;
     Ready := Ready c;
     RestartCount := RestartCount c;
     Image := Image c;
     ContainerID := ContainerID c |}.

(** [cs[i].State.Terminated = v] and [cs[i].State.Running = v]. *)
Definition set_State_Terminated (v : option corev1_ContainerStateTerminated)
    (c : corev1_ContainerStatus) : corev1_ContainerStatus :=
  set_State {| Waiting := Waiting (State c);
               Running := Running (State c);
               Terminated := v |} c.

Definition set_State_Running (v : option corev1_ContainerStateRunning)
    (c : corev1_ContainerStatus) : corev1_ContainerStatus :=
  set_State {| Waiting := Waiting (State c);
               Running := v;
               Terminated := Terminated (State c) |} c.

(** ** Errors

    A Go [error] value is one of: a Kubernetes API status error, which
    carries a reason; a plain error ([fmt.Errorf]); an error wrapped with a
    message ([pkgerrors.Wrap]).  The nil error is [None]. *)

Inductive error :=
| StatusError (reason : string) (message : string)
| ErrorString (message : string)
| WithMessage (cause : error) (message : string).

Fixpoint Error (e : error) : string :=
  match e with
  | StatusError _ m => m
  | ErrorString m => m
  | WithMessage c m => String.append m (String.append ": " (Error c))
  end.

Definition metav1_StatusReasonNotFound : string := "NotFound".

(** errors.IsNotFound: true exactly for an API status error whose reason is
    NotFound; false for nil. *)
Definition errors_IsNotFound (err : option error) : bool :=
  match err with
  | Some (StatusError r _) => String.eqb r metav1_StatusReasonNotFound
  | _ => false
  end.

(** [err == nil] *)
Definition isNil (err : option error) : bool :=
  match err with
  | None => true
  | Some _ => false
  end.

(** fmt.Errorf("Failed to delete kubernetes pod: %s", err) *)
Definition fmt_Errorf_delete (err : option error) : error :=
  ErrorString (String.append "Failed to delete kubernetes pod: "
                 match err with
                 | Some e => Error e
                 | None => "%!s(<nil>)"
                 end).

Definition pkgerrors_Wrap (err : error) (message : string) : error :=
  WithMessage err message.

(** Modelled from the spec: the constant [podStatusReasonProviderFailed] is
    declared outside pod.go; the spec gives its value, "ProviderFailed". *)
Definition podStatusReasonProviderFailed : string := "ProviderFailed".

(** ** Tracing and logging, as events *)

Inductive trace_StatusCode :=
| StatusCodeUnknown
| StatusCodeInvalidArgument.

Inductive trace_Status :=
| Status_of (code : trace_StatusCode) (message : string)
| Status_FromError (err : error).   (* ocstatus.FromError(err) *)

Inductive trace_Attribute :=
| StringAttribute (key value : string)
| Int64Attribute (key : string) (value : Z).

Inductive Event :=
| SpanStart (name : string)
| SpanAddAttributes (attrs : list trace_Attribute)
| SpanSetStatus (st : trace_Status)
| SpanAnnotate (attrs : list trace_Attribute) (message : string)
| SpanEnd (name : string)
| LogInfo (fields : list (string * string)) (message : string)
| LogWarn (fields : list (string * string)) (err : error) (message : string)
| LogError (fields : list (string * string)) (err : error)
| Call_populateEnvironmentVariables (pod : corev1_Pod)
| Call_CreatePod (pod : corev1_Pod)
| Call_DeletePod (pod : corev1_Pod)
| Call_GetPodStatus (namespace name : string)
| Call_UpdateStatus (pod : corev1_Pod)
| Call_Delete (namespace name : string) (gracePeriodSeconds : Z).

(** ** Pointers *)

(** A [*corev1.Pod] is an index into the heap of pod objects; an index with
    no object behind it plays the nil pointer. *)
Abbreviation ptr := nat (only parsing).

(** ** The environment

    Everything the Server reaches through an interface is an oracle over an
    abstract environment state [Σ]: each call may answer differently and
    may move the environment.  The provider and the client receive the pod
    as an argument and do not write to it; [populateEnvironmentVariables]
    (declared outside pod.go) rewrites the pod it is given. *)

Record Env (Σ : Type) := {
  populateEnvironmentVariables : corev1_Pod → Σ → (corev1_Pod * option error) * Σ;
  provider_CreatePod : corev1_Pod → Σ → option error * Σ;
  provider_DeletePod : corev1_Pod → Σ → option error * Σ;
  provider_GetPodStatus : string → string → Σ → (option corev1_PodStatus * option error) * Σ;
  k8sClient_UpdateStatus : corev1_Pod → Σ → option error * Σ;
  k8sClient_Delete : string → string → Z → Σ → option error * Σ;
  resourceManager_GetPods : Σ → list ptr * Σ;
  time_Now : Σ → Time * Σ;
  (* ctx.Err(): nil until the context is done; [<-ctx.Done()] is ready
     exactly when it is not nil *)
  ctx_Err : Σ → option error * Σ
}.

Arguments populateEnvironmentVariables {Σ}.
Arguments provider_CreatePod {Σ}.
Arguments provider_DeletePod {Σ}.
Arguments provider_GetPodStatus {Σ}.
Arguments k8sClient_UpdateStatus {Σ}.
Arguments k8sClient_Delete {Σ}.
Arguments resourceManager_GetPods {Σ}.
Arguments time_Now {Σ}.
Arguments ctx_Err {Σ}.

(** ** The monad of the embedding: state, event log, Go panics *)

Inductive Res (A : Type) :=
| Val (a : A)
| Panic (msg : string).

Arguments Val {A}.
Arguments Panic {A}.

Record St (Σ : Type) := {
  heap : list corev1_Pod;
  env : Σ;
  events : list Event
}.

Arguments heap {Σ}.
Arguments env {Σ}.
Arguments events {Σ}.
Arguments Build_St {Σ}.

Definition M (Σ A : Type) := St Σ → Res A * St Σ.

Definition ret {Σ A} (a : A) : M Σ A := λ s, (Val a, s).

Definition bind {Σ A B} (m : M Σ A) (k : A → M Σ B) : M Σ B :=
  λ s, match m s with
       | (Val a, s1) => k a s1
       | (Panic msg, s1) => (Panic msg, s1)
       end.

Declare Scope go_scope.
Delimit Scope go_scope with go.
Notation "x <~ m ;; k" := (bind m (λ x, k))
  (at level 100, m at next level, right associativity) : go_scope.
Notation "m ;;; k" := (bind m (λ _, k))
  (at level 100, right associativity) : go_scope.

Definition nilDeref : string :=
  "runtime error: invalid memory address or nil pointer dereference".

Definition panic {Σ A} (msg : string) : M Σ A := λ s, (Panic msg, s).

Definition emit {Σ} (ev : Event) : M Σ unit :=
  λ s, (Val tt, Build_St (heap s) (env s) (events s ++ [ev])).

Definition oracle {Σ A} (f : Σ → A * Σ) : M Σ A :=
  λ s, let '(a, σ) := f (env s) in (Val a, Build_St (heap s) σ (events s)).

(** [*pod] read and written through the pointer. *)
Definition deref {Σ} (pod : ptr) : M Σ corev1_Pod :=
  λ s, match heap s !! pod with
       | Some o => (Val o, s)
       | None => (Panic nilDeref, s)
       end.

Definition assign {Σ} (pod : ptr) (f : corev1_Pod → corev1_Pod) : M Σ unit :=
  λ s, match heap s !! pod with
       | Some o => (Val tt, Build_St (<[pod := f o]> (heap s)) (env s) (events s))
       | None => (Panic nilDeref, s)
       end.

(** [defer cleanup] around a body: the cleanup runs on return and on panic. *)
Definition defer {Σ A} (body : M Σ A) (cleanup : M Σ unit) : M Σ A :=
  λ s, let '(r, s1) := body s in (r, snd (cleanup s1)).

(** ** The Server's methods (vkubelet/pod.go) *)

(** How a [for] body or a [select] leaves: by falling through, or by the
    [return] of the enclosing function. *)
Inductive ctrl := Fallthrough | Returned.

Definition notFoundPodMessage : string :=
  "The pod status was not found and may have been deleted from the provider".
Definition notFoundContainerMessage : string :=
  "Container was not found and was likely deleted".

(** The line-80 / line-38 logger: log.G(ctx) with the pod and namespace. *)
Definition podLogger (o : corev1_Pod) : list (string * string) :=
  [("pod", Name (ObjectMeta o)); ("namespace", Namespace (ObjectMeta o))].

Definition sweepLogger (o : corev1_Pod) : list (string * string) :=
  podLogger o ++ [("status", Phase (Status o)); ("reason", Reason (Status o))].

Definition podAttributes (o : corev1_Pod) : list trace_Attribute :=
  [StringAttribute "uid" (UID (ObjectMeta o));
   StringAttribute "namespace" (Namespace (ObjectMeta o));
   StringAttribute "name" (Name (ObjectMeta o));
   StringAttribute "phase" (Phase (Status o));
   StringAttribute "reason" (Reason (Status o))].

(** The guard of lines 128-130. *)
Definition isTerminal (o : corev1_Pod) : bool :=
  String.eqb (Phase (Status o)) corev1_PodSucceeded
  || String.eqb (Phase (Status o)) corev1_PodFailed
  || String.eqb (Reason (Status o)) podStatusReasonProviderFailed.

(** The composite literal of lines 152-159. *)
Definition notFoundTerminated (now : Time) (running : corev1_ContainerStateRunning)
    (c : corev1_ContainerStatus) : corev1_ContainerStateTerminated :=
  {| ExitCode := -137;
     Signal := 0;
     Terminated_Reason := "NotFound";
     Terminated_Message := notFoundContainerMessage;
     Terminated_StartedAt := StartedAt running;
     FinishedAt := now;
     Terminated_ContainerID := ContainerID c |}.

Definition alter_ContainerStatus (i : nat)
    (f : corev1_ContainerStatus → corev1_ContainerStatus) (o : corev1_Pod) : corev1_Pod :=
  set_ContainerStatuses (alter f i (ContainerStatuses (Status o))) o.

Section Server.
Context {Σ : Type} (s : Env Σ).
Local Open Scope go_scope.

(** [err.Error()]: a method call on the nil interface panics. *)
Definition call_Error (err : option error) : M Σ string :=
  match err with
  | Some e => ret (Error e)
  | None => panic nilDeref
  end.

(** Lines 18-26.  Reading the pod through a nil pointer panics. *)
Definition addPodAttributes (pod : ptr) : M Σ unit :=
  o <~ deref pod ;;
  emit (SpanAddAttributes (podAttributes o)).

(** Lines 28-66. *)
Definition createPod (pod : ptr) : M Σ (option error) :=
  emit (SpanStart "createPod") ;;;
  defer
    (addPodAttributes pod ;;;
     o <~ deref pod ;;
     emit (Call_populateEnvironmentVariables o) ;;;
     r <~ oracle (populateEnvironmentVariables s o) ;;
     assign pod (λ _, fst r) ;;;
     match snd r with
     | Some err =>
         emit (SpanSetStatus (Status_of StatusCodeInvalidArgument (Error err))) ;;;
         ret (Some err)
     | None =>
         o <~ deref pod ;;
         let logger := podLogger o in
         emit (Call_CreatePod o) ;;;
         origErr <~ oracle (provider_CreatePod s o) ;;
         match origErr with
         | Some origErr =>
             o <~ deref pod ;;
             let podPhase :=
               if String.eqb (RestartPolicy (Spec o)) corev1_RestartPolicyNever
               then corev1_PodFailed else corev1_PodPending in
             assign pod (set_ResourceVersion "") ;;;
             assign pod (set_Phase podPhase) ;;;
             assign pod (set_Reason podStatusReasonProviderFailed) ;;;
             assign pod (set_Message (Error origErr)) ;;;
             o <~ deref pod ;;
             emit (Call_UpdateStatus o) ;;;
             err <~ oracle (k8sClient_UpdateStatus s o) ;;
             (match err with
              | Some err => emit (LogWarn logger err "Failed to update pod status")
              | None => emit (SpanAnnotate [] "Updated k8s pod status")
              end) ;;;
             emit (SpanSetStatus (Status_of StatusCodeUnknown (Error origErr))) ;;;
             ret (Some origErr)
         | None =>
             emit (SpanAnnotate [] "Created pod in provider") ;;;
             emit (LogInfo logger "Pod created") ;;;
             ret None
         end
     end)
    (emit (SpanEnd "createPod")).

(** Lines 68-97, with the conditions of lines 74, 81, 83 and 84 as they are
    written. *)
Definition deletePod (pod : ptr) : M Σ (option error) :=
  emit (SpanStart "deletePod") ;;;
  defer
    (addPodAttributes pod ;;;
     o <~ deref pod ;;
     emit (Call_DeletePod o) ;;;
     delErr <~ oracle (provider_DeletePod s o) ;;
     if negb (isNil delErr) && errors_IsNotFound delErr then
       msg <~ call_Error delErr ;;
       emit (SpanSetStatus (Status_of StatusCodeUnknown msg)) ;;;
       ret delErr
     else
       emit (SpanAnnotate [] "Deleted pod from provider") ;;;
       o <~ deref pod ;;
       let logger := podLogger o in
       if negb (errors_IsNotFound delErr) then
         let grace := 0 in
         emit (Call_Delete (Namespace (ObjectMeta o)) (Name (ObjectMeta o)) grace) ;;;
         err <~ oracle (k8sClient_Delete s (Namespace (ObjectMeta o))
                          (Name (ObjectMeta o)) grace) ;;
         if negb (isNil err) && errors_IsNotFound err then
           if errors_IsNotFound err then
             emit (SpanAnnotate [] "Pod does not exist in k8s, nothing to delete") ;;;
             ret None
           else
             msg <~ call_Error err ;;
             emit (SpanSetStatus (Status_of StatusCodeUnknown msg)) ;;;
             ret (Some (fmt_Errorf_delete err))
         else
           emit (SpanAnnotate [] "Deleted pod from k8s") ;;;
           emit (LogInfo logger "Pod deleted") ;;;
           ret None
       else ret None)
    (emit (SpanEnd "deletePod")).

(** The loop of lines 151-161: [n] iterations remain, [i] is the index.
    The slice is the pod's own, so [c] is read from it at each iteration. *)
Fixpoint range_ContainerStatuses (pod : ptr) (n : nat) (i : nat) : M Σ unit :=
  match n with
  | O => ret tt
  | S n' =>
      o <~ deref pod ;;
      match ContainerStatuses (Status o) !! i with
      | None => panic "runtime error: index out of range"
      | Some c =>
          now <~ oracle (time_Now s) ;;
          match Running (State c) with
          | None => panic nilDeref
          | Some running =>
              assign pod (alter_ContainerStatus i
                (set_State_Terminated (Some (notFoundTerminated now running c)))) ;;;
              assign pod (alter_ContainerStatus i (set_State_Running None)) ;;;
              range_ContainerStatuses pod n' (S i)
          end
      end
  end.

(** The condition of line 146; the clock is read only when the phase is
    not Running. *)
Definition wasUpOrIsOld (o : corev1_Pod) (σ : Σ) : bool * Σ :=
  if String.eqb (Phase (Status o)) corev1_PodRunning then (true, σ)
  else
    let '(now, σ') := time_Now s σ in
    (Time_Before (Time_Add (CreationTimestamp (ObjectMeta o)) time_Minute) now, σ').

(** The environment after [k] readings of the clock, and the reading that
    comes next. *)
Definition clockAfter (k : nat) (σ : Σ) : Σ :=
  Nat.iter k (λ σ', snd (time_Now s σ')) σ.

Definition nowAfter (k : nat) (σ : Σ) : Time :=
  fst (time_Now s (clockAfter k σ)).

(** Lines 123-175. *)
Definition updatePodStatus (pod : ptr) : M Σ (option error) :=
  emit (SpanStart "updatePodStatus") ;;;
  defer
    (addPodAttributes pod ;;;
     o <~ deref pod ;;
     if isTerminal o then ret None
     else
       emit (Call_GetPodStatus (Namespace (ObjectMeta o)) (Name (ObjectMeta o))) ;;;
       r <~ oracle (provider_GetPodStatus s (Namespace (ObjectMeta o))
                      (Name (ObjectMeta o))) ;;
       match snd r with
       | Some err =>
           emit (SpanSetStatus (Status_FromError err)) ;;;
           ret (Some (pkgerrors_Wrap err "error retreiving pod status"))
       | None =>
           (match fst r with
            | Some status => assign pod (set_Status status)
            | None =>
                o <~ deref pod ;;
                gone <~ oracle (wasUpOrIsOld o) ;;
                if (gone : bool) then
                  assign pod (set_Phase corev1_PodFailed) ;;;
                  assign pod (set_Reason "NotFound") ;;;
                  assign pod (set_Message notFoundPodMessage) ;;;
                  o <~ deref pod ;;
                  range_ContainerStatuses pod (length (ContainerStatuses (Status o))) 0
                else ret tt
            end) ;;;
           o <~ deref pod ;;
           emit (Call_UpdateStatus o) ;;;
           err <~ oracle (k8sClient_UpdateStatus s o) ;;
           match err with
           | Some err =>
               emit (SpanSetStatus (Status_FromError err)) ;;;
               ret (Some (pkgerrors_Wrap err "error while updating pod status in kubernetes"))
           | None =>
               o <~ deref pod ;;
               emit (SpanAnnotate
                       [StringAttribute "new phase" (Phase (Status o));
                        StringAttribute "new reason" (Reason (Status o))]
                       "updated pod status in kubernetes") ;;;
               ret None
           end
       end)
    (emit (SpanEnd "updatePodStatus")).

(** The loop of lines 108-120: the [select] with its [default] is one
    reading of the context. *)
Fixpoint range_pods (pods : list ptr) : M Σ ctrl :=
  match pods with
  | [] => ret Fallthrough
  | pod :: rest =>
      done <~ oracle (ctx_Err s) ;;
      match done with
      | Some e =>
          emit (SpanAnnotate [] (Error e)) ;;;
          ret Returned
      | None =>
          err <~ updatePodStatus pod ;;
          (match err with
           | Some err =>
               o <~ deref pod ;;
               emit (LogError (sweepLogger o) err)
           | None => ret tt
           end) ;;;
          range_pods rest
      end
  end.

(** Lines 100-121. *)
Definition updatePodStatuses : M Σ unit :=
  emit (SpanStart "updatePodStatuses") ;;;
  defer
    (pods <~ oracle (resourceManager_GetPods s) ;;
     emit (SpanAddAttributes [Int64Attribute "nPods" (Z.of_nat (length pods))]) ;;;
     range_pods pods ;;;
     ret tt)
    (emit (SpanEnd "updatePodStatuses")).

End Server.

Arguments addPodAttributes {Σ} pod.
Arguments call_Error {Σ} err.

(** ** What the methods leave behind

    Pure descriptions of single stretches of pod.go, used to state what a
    run of a method returns. *)

(** Lines 41-49: the pod after a failed Provider.CreatePod. *)
Definition failedCreatePhase (o : corev1_Pod) : corev1_PodPhase :=
  if String.eqb (RestartPolicy (Spec o)) corev1_RestartPolicyNever
  then corev1_PodFailed else corev1_PodPending.

Definition providerFailed (origErr : error) (o : corev1_Pod) : corev1_Pod :=
  set_Message (Error origErr)
    (set_Reason podStatusReasonProviderFailed
       (set_Phase (failedCreatePhase o) (set_ResourceVersion "" o))).

(** Lines 51-56: the log entry of the status write of createPod. *)
Definition statusWriteEvent (o : corev1_Pod) (werr : option error) : Event :=
  match werr with
  | Some err => LogWarn (podLogger o) err "Failed to update pod status"
  | None => SpanAnnotate [] "Updated k8s pod status"
  end.

(** Lines 83-93: the log entries of the record delete of deletePod. *)
Definition recordDeleteEvents (o : corev1_Pod) (err : option error) : list Event :=
  if errors_IsNotFound err
  then [SpanAnnotate [] "Pod does not exist in k8s, nothing to delete"]
  else [SpanAnnotate [] "Deleted pod from k8s"; LogInfo (podLogger o) "Pod deleted"].

(** Lines 148-150: phase, reason and message of a pod the provider lost. *)
Definition notFoundPod (o : corev1_Pod) : corev1_Pod :=
  set_Message notFoundPodMessage (set_Reason "NotFound" (set_Phase corev1_PodFailed o)).

(** Lines 152-160: one entry of the container statuses of such a pod. *)
Definition notFoundContainer (now : Time) (c : corev1_ContainerStatus)
    : corev1_ContainerStatus :=
  match Running (State c) with
  | Some running =>
      set_State_Running None
        (set_State_Terminated (Some (notFoundTerminated now running c)) c)
  | None => c
  end.

(** Lines 165-174: the return value and the log entry of the status write of
    updatePodStatus. *)
Definition statusWriteResult (werr : option error) : option error :=
  match werr with
  | Some err => Some (pkgerrors_Wrap err "error while updating pod status in kubernetes")
  | None => None
  end.

Definition statusWriteTail (o : corev1_Pod) (werr : option error) : Event :=
  match werr with
  | Some err => SpanSetStatus (Status_FromError err)
  | None =>
      SpanAnnotate [StringAttribute "new phase" (Phase (Status o));
                    StringAttribute "new reason" (Reason (Status o))]
        "updated pod status in kubernetes"
  end.


(** ** Observing a sweep *)

(** The identity of a pod, and the pods whose processing a log shows: each
    call of updatePodStatus records the pod's attributes on its span. *)
Definition podIdent (o : corev1_Pod) : string * string * string :=
  (UID (ObjectMeta o), Namespace (ObjectMeta o), Name (ObjectMeta o)).

Definition podStarted (ev : Event) : option (string * string * string) :=
  match ev with
  | SpanAddAttributes
      [StringAttribute _ uid; StringAttribute _ ns; StringAttribute _ n;
       StringAttribute _ _; StringAttribute _ _] => Some (uid, ns, n)
  | _ => None
  end.

Definition podsStarted (evs : list Event) : list (string * string * string) :=
  omap podStarted evs.


(** A sequence of reconciliation steps: sweeps, and status updates of single
    pods.  A panic ends the sequence, as it ends the process. *)
Inductive Reconcile :=
| Sweep
| UpdateOne (pod : ptr).

Fixpoint reconcile {Σ} (s : Env Σ) (steps : list Reconcile) : M Σ unit :=
  match steps with
  | [] => ret tt
  | Sweep :: rest => bind (updatePodStatuses s) (λ _, reconcile s rest)
  | UpdateOne pod :: rest => bind (updatePodStatus s pod) (λ _, reconcile s rest)
  end.

(** ** Two sweeps in a row *)

Section Settled.
Context {Σ : Type} (s : Env Σ).

(** The provider's answer depends on the pod's namespace and name only. *)
Definition providerFixed
    (G : string → string → option corev1_PodStatus * option error) : Prop :=
  ∀ ns n σ, fst (provider_GetPodStatus s ns n σ) = G ns n.



End Settled.

(** ** Concrete environments and pods, for running the methods *)

(** A script fixes the answer of every oracle but the clock. *)
Record Script := {
  on_populate : option error;
  on_CreatePod : option error;
  on_DeletePod : option error;
  on_GetPodStatus : option corev1_PodStatus * option error;
  on_UpdateStatus : option error;
  on_Delete : option error;
  on_GetPods : list ptr;
  on_ctx : option error;
  tick : Duration
}.

(** The environment state is the wall clock; every reading of the clock
    moves it by [tick]. *)
Definition scripted (sc : Script) : Env Time :=
  {| populateEnvironmentVariables := λ o σ, ((o, on_populate sc), σ);
     provider_CreatePod := λ _ σ, (on_CreatePod sc, σ);
     provider_DeletePod := λ _ σ, (on_DeletePod sc, σ);
     provider_GetPodStatus := λ _ _ σ, (on_GetPodStatus sc, σ);
     k8sClient_UpdateStatus := λ _ σ, (on_UpdateStatus sc, σ);
     k8sClient_Delete := λ _ _ _ σ, (on_Delete sc, σ);
     resourceManager_GetPods := λ σ, (on_GetPods sc, σ);
     time_Now := λ σ, (σ, σ + tick sc);
     ctx_Err := λ σ, (on_ctx sc, σ) |}.


Definition second : Duration := 1000000000.

Definition errNotFound : error := StatusError "NotFound" "pod nginx not found".
Definition errInternal : error := StatusError "InternalError" "backend unavailable".

Definition runningContainer (name : string) (started : Time) : corev1_ContainerStatus :=
  {| ContainerStatus_Name := name;
     State := {| Waiting := None;
                 Running := Some {| StartedAt := started |};
                 Terminated := None |};
     Ready := true; RestartCount := 0; Image := "nginx:1.15";
     ContainerID := String.append "mock://" name |}.

Definition waitingContainer (name : string) : corev1_ContainerStatus :=
  {| ContainerStatus_Name := name;
     State := {| Waiting := Some {| Waiting_Reason := "ContainerCreating";
                                    Waiting_Message := "" |};
                 Running := None;
                 Terminated := None |};
     Ready := false; RestartCount := 0; Image := "nginx:1.15";
     ContainerID := "" |}.

Definition runningStatus : corev1_PodStatus :=
  {| Phase := corev1_PodRunning; Message := ""; Reason := ""; HostIP := "10.0.0.4";
     PodIP := "10.244.0.7";
     ContainerStatuses := [runningContainer "web" (5 * second)] |}.

(** The provider knows no pod; every call succeeds. *)
Definition quiet : Script :=
  {| on_populate := None; on_CreatePod := None; on_DeletePod := None;
     on_GetPodStatus := (None, None); on_UpdateStatus := None; on_Delete := None;
     on_GetPods := [0%nat]; on_ctx := None; tick := 45 * second |}.

(** Provider.DeletePod reports NotFound. *)
Definition providerLostPod : Script :=
  {| on_populate := None; on_CreatePod := None; on_DeletePod := Some errNotFound;
     on_GetPodStatus := (None, None); on_UpdateStatus := None; on_Delete := None;
     on_GetPods := [0%nat]; on_ctx := None; tick := 45 * second |}.

(** Every call to the provider fails with an internal error. *)
Definition providerDown : Script :=
  {| on_populate := None; on_CreatePod := Some errInternal;
     on_DeletePod := Some errInternal;
     on_GetPodStatus := (None, Some errInternal); on_UpdateStatus := None;
     on_Delete := None;
     on_GetPods := [0%nat]; on_ctx := None; tick := 45 * second |}.

(** Every write to the orchestrator record fails with an internal error. *)
Definition apiServerDown : Script :=
  {| on_populate := None; on_CreatePod := None; on_DeletePod := None;
     on_GetPodStatus := (None, None); on_UpdateStatus := Some errInternal;
     on_Delete := Some errInternal;
     on_GetPods := [0%nat]; on_ctx := None; tick := 45 * second |}.


(** The provider reports every pod as running; two pods are tracked. *)
Definition providerRunning : Script :=
  {| on_populate := None; on_CreatePod := None; on_DeletePod := None;
     on_GetPodStatus := (Some runningStatus, None); on_UpdateStatus := None;
     on_Delete := None;
     on_GetPods := [0%nat; 1%nat]; on_ctx := None; tick := 45 * second |}.

(** GetPodStatus fails for every pod; two pods are tracked. *)
Definition providerFlaky : Script :=
  {| on_populate := None; on_CreatePod := None; on_DeletePod := None;
     on_GetPodStatus := (None, Some errInternal); on_UpdateStatus := None;
     on_Delete := None;
     on_GetPods := [0%nat; 1%nat]; on_ctx := None; tick := 45 * second |}.

(** The context is done before the sweep starts; two pods are tracked. *)
Definition cancelled : Script :=
  {| on_populate := None; on_CreatePod := None; on_DeletePod := None;
     on_GetPodStatus := (Some runningStatus, None); on_UpdateStatus := None;
     on_Delete := None;
     on_GetPods := [0%nat; 1%nat]; on_ctx := Some (ErrorString "context canceled");
     tick := 45 * second |}.

(** The provider knows no pod; two pods are tracked. *)
Definition quietTwo : Script :=
  {| on_populate := None; on_CreatePod := None; on_DeletePod := None;
     on_GetPodStatus := (None, None); on_UpdateStatus := None; on_Delete := None;
     on_GetPods := [0%nat; 1%nat]; on_ctx := None; tick := 45 * second |}.

(** The pod default/nginx, declaring the container web. *)
Definition nginx (phase : corev1_PodPhase) (policy : corev1_RestartPolicy)
    (created : Time) (cs : list corev1_ContainerStatus) : corev1_Pod :=
  {| ObjectMeta := {| Name := "nginx"; Namespace := "default"; UID := "uid-0";
                      ResourceVersion := "41"; CreationTimestamp := created |};
     Spec := {| Containers := [ {| Container_Name := "web"; Container_Image := "nginx:1.15" |} ];
                RestartPolicy := policy |};
     Status := {| Phase := phase; Message := ""; Reason := ""; HostIP := "";
                  PodIP := ""; ContainerStatuses := cs |} |}.

Definition runningNginx : corev1_Pod :=
  nginx corev1_PodRunning "Always" 0 [runningContainer "web" (5 * second)].

(** Pending, with no container status yet. *)
Definition pendingNginx (policy : corev1_RestartPolicy) : corev1_Pod :=
  nginx corev1_PodPending policy 0 [].

(** Pending, its only container still waiting. *)
Definition creatingNginx : corev1_Pod :=
  nginx corev1_PodPending "Always" 0 [waitingContainer "web"].

Definition failedNginx : corev1_Pod :=
  nginx corev1_PodFailed "Never" 0 [].

(** A state holding the given pods, the environment at [now], an empty log. *)
Definition boot {Σ} (pods : list corev1_Pod) (now : Σ) : St Σ :=
  {| heap := pods; env := now; events := [] |}.

(** * Properties *)

(** Running a method symbolically: unfold the monad, then use what is known
    about the heap cell and the oracles' answers. *)
Ltac go_unfold :=
  unfold bind, ret, emit, oracle, deref, assign, defer, panic,
    addPodAttributes, call_Error.

Ltac go_known :=
  match goal with
  | H : ?l = _ |- context [?l] => rewrite H
  end.

(** Reading a cell that was just written. *)
Lemma lookup_insert_heap (l : list corev1_Pod) (pod : ptr) o x :
  l !! pod = Some o → <[pod:=x]> l !! pod = Some x.
Proof. intros H. apply list_lookup_insert_eq. by eapply lookup_lt_Some. Qed.

Ltac go_heap :=
  first [rewrite list_insert_insert_eq
        | erewrite lookup_insert_heap by eassumption].

Ltac go_run := repeat first [progress (go_unfold; simpl) | go_known | go_heap].

(** Membership in an explicit event log. *)
Ltac log_solve :=
  repeat rewrite ?elem_of_app, ?elem_of_cons, ?elem_of_nil in *;
  intuition (try discriminate; try congruence).

Arguments errors_IsNotFound : simpl never.

Lemma errors_IsNotFound_not_nil err :
  errors_IsNotFound err = true → isNil err = false.
Proof. by destruct err. Qed.

(** ** deletePod *)

Section DeletePod.
Context {Σ : Type} (s : Env Σ).
Implicit Types (st : St Σ) (pod : ptr) (o : corev1_Pod).

(** The provider says NotFound: the early return of lines 74-77. *)
Lemma deletePod_run_NotFound pod st o e σ1 :
  heap st !! pod = Some o →
  provider_DeletePod s o (env st) = (Some e, σ1) →
  errors_IsNotFound (Some e) = true →
  deletePod s pod st =
    (Val (Some e),
     Build_St (heap st) σ1
       (events st ++
        [SpanStart "deletePod"; SpanAddAttributes (podAttributes o); Call_DeletePod o;
         SpanSetStatus (Status_of StatusCodeUnknown (Error e));
         SpanEnd "deletePod"])).
Proof.
  intros Hpod Hdel Hnf. unfold deletePod. go_run.
  by rewrite <- !app_assoc.
Qed.

(** Anything else from the provider, nil or an error that is not NotFound:
    lines 78-96. *)
Lemma deletePod_run_proceeds pod st o delErr σ1 err σ2 :
  heap st !! pod = Some o →
  provider_DeletePod s o (env st) = (delErr, σ1) →
  errors_IsNotFound delErr = false →
  k8sClient_Delete s (Namespace (ObjectMeta o)) (Name (ObjectMeta o)) 0 σ1 = (err, σ2) →
  deletePod s pod st =
    (Val None,
     Build_St (heap st) σ2
       (events st ++
        [SpanStart "deletePod"; SpanAddAttributes (podAttributes o); Call_DeletePod o;
         SpanAnnotate [] "Deleted pod from provider";
         Call_Delete (Namespace (ObjectMeta o)) (Name (ObjectMeta o)) 0]
        ++ recordDeleteEvents o err ++ [SpanEnd "deletePod"])).
Proof.
  intros Hpod Hdel Hnf Hk. unfold deletePod, recordDeleteEvents. go_run.
  rewrite andb_false_r. go_run.
  destruct (errors_IsNotFound err) eqn:Herr.
  - rewrite (errors_IsNotFound_not_nil _ Herr). go_run. by rewrite <- !app_assoc.
  - rewrite andb_false_r. go_run. by rewrite <- !app_assoc.
Qed.

End DeletePod.

(** C1, as amended.  When Provider.DeletePod reports NotFound, deletePod
    returns that NotFound error to its caller and does not attempt the
    orchestrator-side delete (the environment is left as the provider call
    left it); when Provider.DeletePod succeeds, the orchestrator record of
    the pod is deleted, with grace period zero.  The pod itself is never
    written. *)
Theorem deletePod_NotFound_or_success {Σ} (s : Env Σ) pod st o delErr σ1 :
  heap st !! pod = Some o →
  provider_DeletePod s o (env st) = (delErr, σ1) →
  delErr = None ∨ errors_IsNotFound delErr = true →
  ∃ r st' evs,
    deletePod s pod st = (Val r, st') ∧
    heap st' = heap st ∧
    events st' = events st ++ evs ∧
    if errors_IsNotFound delErr
    then r = delErr ∧ env st' = σ1 ∧ ∀ ns n g, Call_Delete ns n g ∉ evs
    else Call_Delete (Namespace (ObjectMeta o)) (Name (ObjectMeta o)) 0 ∈ evs
         ∧ ∀ ns n g, Call_Delete ns n g ∈ evs → g = 0.
Proof.
  intros Hpod Hdel Hcase.
  destruct (errors_IsNotFound delErr) eqn:Hnf.
  - destruct delErr as [e|]; [|done].
    eexists _, _, _. split; [by eapply deletePod_run_NotFound|].
    simpl. repeat split; try done.
    intros ns n g Hin. log_solve.
  - destruct Hcase as [->|]; [|done].
    destruct (k8sClient_Delete s (Namespace (ObjectMeta o)) (Name (ObjectMeta o)) 0 σ1)
      as [err σ2] eqn:Hk.
    eexists _, _, _. split; [by eapply deletePod_run_proceeds|].
    simpl. repeat split; try done.
    + log_solve.
    + intros ns n g Hin. unfold recordDeleteEvents in Hin.
      destruct (errors_IsNotFound err); log_solve.
Qed.

Lemma deletePod_NotFound_or_success_witness :
  ∃ r st' evs,
    deletePod (scripted providerLostPod) 0%nat (boot [runningNginx] 0) = (Val r, st') ∧
    heap st' = [runningNginx] ∧
    events st' = [] ++ evs ∧
    r = Some errNotFound ∧ env st' = 0 ∧ ∀ ns n g, Call_Delete ns n g ∉ evs.
Proof.
  apply (deletePod_NotFound_or_success (scripted providerLostPod) 0%nat
           (boot [runningNginx] 0) runningNginx (Some errNotFound) 0).
  - reflexivity.
  - reflexivity.
  - right. reflexivity.
Defined.

(** C1 as stated fails: the provider reports NotFound, and no delete of the
    orchestrator record is issued. *)
Lemma deletePod_NotFound_no_record_delete :
  errors_IsNotFound (fst (provider_DeletePod (scripted providerLostPod) runningNginx 0)) = true
  ∧ fst (deletePod (scripted providerLostPod) 0%nat (boot [runningNginx] 0))
      = Val (Some errNotFound)
  ∧ ¬ ∃ ns n g,
        Call_Delete ns n g
          ∈ events (snd (deletePod (scripted providerLostPod) 0%nat (boot [runningNginx] 0))).
Proof.
  split; [reflexivity|]. split; [reflexivity|].
  intros (ns & n & g & Hin). vm_compute in Hin.
  repeat (apply elem_of_cons in Hin as [Hin|Hin]; [discriminate|]).
  by apply elem_of_nil in Hin.
Qed.

(** C2 (the code's behaviour at the failing inputs).  A provider error that
    is not NotFound is dropped: deletePod goes on to the record delete and
    returns nil, whatever the record delete answers. *)
Theorem deletePod_drops_provider_error {Σ} (s : Env Σ) pod st o e σ1 :
  heap st !! pod = Some o →
  provider_DeletePod s o (env st) = (Some e, σ1) →
  errors_IsNotFound (Some e) = false →
  ∃ st', deletePod s pod st = (Val None, st')
         ∧ Call_Delete (Namespace (ObjectMeta o)) (Name (ObjectMeta o)) 0 ∈ events st'.
Proof.
  intros Hpod Hdel Hnf.
  destruct (k8sClient_Delete s (Namespace (ObjectMeta o)) (Name (ObjectMeta o)) 0 σ1)
    as [err σ2] eqn:Hk.
  eexists. split; [by eapply deletePod_run_proceeds|].
  simpl. log_solve.
Qed.

Lemma deletePod_drops_provider_error_witness :
  ∃ st', deletePod (scripted providerDown) 0%nat (boot [runningNginx] 0) = (Val None, st')
         ∧ Call_Delete "default" "nginx" 0 ∈ events st'.
Proof.
  apply (deletePod_drops_provider_error (scripted providerDown) 0%nat
           (boot [runningNginx] 0) runningNginx errInternal 0);
    reflexivity.
Defined.

(** C6 (the code's behaviour at the failing inputs).  An error of the
    record delete that is not NotFound is dropped: deletePod reports the
    pod as deleted and returns nil. *)
Theorem deletePod_drops_record_delete_error {Σ} (s : Env Σ) pod st o delErr σ1 e σ2 :
  heap st !! pod = Some o →
  provider_DeletePod s o (env st) = (delErr, σ1) →
  errors_IsNotFound delErr = false →
  k8sClient_Delete s (Namespace (ObjectMeta o)) (Name (ObjectMeta o)) 0 σ1 = (Some e, σ2) →
  errors_IsNotFound (Some e) = false →
  ∃ st', deletePod s pod st = (Val None, st')
         ∧ LogInfo (podLogger o) "Pod deleted" ∈ events st'.
Proof.
  intros Hpod Hdel Hnf Hk Hknf.
  eexists. split; [by eapply deletePod_run_proceeds|].
  simpl. unfold recordDeleteEvents. rewrite Hknf. log_solve.
Qed.

Lemma deletePod_drops_record_delete_error_witness :
  ∃ st', deletePod (scripted apiServerDown) 0%nat (boot [runningNginx] 0) = (Val None, st')
         ∧ LogInfo (podLogger runningNginx) "Pod deleted" ∈ events st'.
Proof.
  apply (deletePod_drops_record_delete_error (scripted apiServerDown) 0%nat
           (boot [runningNginx] 0) runningNginx None 0 errInternal 0);
    reflexivity.
Defined.

(** ** createPod *)

Section CreatePod.
Context {Σ : Type} (s : Env Σ).
Implicit Types (st : St Σ) (pod : ptr) (o : corev1_Pod).


(** Lines 40-60. *)
Lemma createPod_run_provider_error pod st o o1 σ1 origErr σ2 werr σ3 :
  heap st !! pod = Some o →
  populateEnvironmentVariables s o (env st) = ((o1, None), σ1) →
  provider_CreatePod s o1 σ1 = (Some origErr, σ2) →
  k8sClient_UpdateStatus s (providerFailed origErr o1) σ2 = (werr, σ3) →
  createPod s pod st =
    (Val (Some origErr),
     Build_St (<[pod:=providerFailed origErr o1]> (heap st)) σ3
       (events st ++
        [SpanStart "createPod"; SpanAddAttributes (podAttributes o);
         Call_populateEnvironmentVariables o;
         Call_CreatePod o1;
         Call_UpdateStatus (providerFailed origErr o1);
         statusWriteEvent o1 werr;
         SpanSetStatus (Status_of StatusCodeUnknown (Error origErr));
         SpanEnd "createPod"])).
Proof.
  intros Hpod Hpop Hcreate Hwrite. unfold createPod. go_run.
  unfold providerFailed, failedCreatePhase in Hwrite. go_run.
  unfold statusWriteEvent. destruct werr; go_run; by rewrite <- !app_assoc.
Qed.

End CreatePod.

(** C5.  When Provider.CreatePod fails, createPod clears the pod's resource
    version, sets the phase to Failed under restart policy Never and to
    Pending otherwise, sets the reason to ProviderFailed and the message to
    the provider error's text, writes the status to the orchestrator record
    once, logs a failure of that write without retrying or returning it, and
    returns the provider's error. *)
Theorem createPod_provider_failure {Σ} (s : Env Σ) pod st o o1 σ1 origErr σ2 :
  heap st !! pod = Some o →
  populateEnvironmentVariables s o (env st) = ((o1, None), σ1) →
  provider_CreatePod s o1 σ1 = (Some origErr, σ2) →
  ∃ st' o' werr,
    createPod s pod st = (Val (Some origErr), st') ∧
    heap st' = <[pod:=o']> (heap st) ∧
    ResourceVersion (ObjectMeta o') = "" ∧
    Phase (Status o') =
      (if String.eqb (RestartPolicy (Spec o1)) "Never" then "Failed" else "Pending") ∧
    Reason (Status o') = "ProviderFailed" ∧
    Message (Status o') = Error origErr ∧
    k8sClient_UpdateStatus s o' σ2 = (werr, env st') ∧
    events st' =
      events st ++
      [SpanStart "createPod"; SpanAddAttributes (podAttributes o);
       Call_populateEnvironmentVariables o;
       Call_CreatePod o1;
       Call_UpdateStatus o';
       match werr with
       | Some err => LogWarn (podLogger o1) err "Failed to update pod status"
       | None => SpanAnnotate [] "Updated k8s pod status"
       end;
       SpanSetStatus (Status_of StatusCodeUnknown (Error origErr));
       SpanEnd "createPod"].
Proof.
  intros Hpod Hpop Hcreate.
  destruct (k8sClient_UpdateStatus s (providerFailed origErr o1) σ2) as [werr σ3] eqn:Hwrite.
  exists (Build_St (<[pod:=providerFailed origErr o1]> (heap st)) σ3
            (events st ++
             [SpanStart "createPod"; SpanAddAttributes (podAttributes o);
              Call_populateEnvironmentVariables o;
              Call_CreatePod o1;
              Call_UpdateStatus (providerFailed origErr o1);
              statusWriteEvent o1 werr;
              SpanSetStatus (Status_of StatusCodeUnknown (Error origErr));
              SpanEnd "createPod"])),
    (providerFailed origErr o1), werr.
  split; [by eapply createPod_run_provider_error|].
  repeat split; done.
Qed.

Lemma createPod_provider_failure_witness :
  ∃ st' o' werr,
    createPod (scripted providerDown) 0%nat (boot [pendingNginx "Never"] 0)
      = (Val (Some errInternal), st') ∧
    heap st' = <[0%nat:=o']> [pendingNginx "Never"] ∧
    ResourceVersion (ObjectMeta o') = "" ∧
    Phase (Status o') = "Failed" ∧
    Reason (Status o') = "ProviderFailed" ∧
    Message (Status o') = "backend unavailable" ∧
    k8sClient_UpdateStatus (scripted providerDown) o' 0 = (werr, env st') ∧
    events st' =
      [] ++
      [SpanStart "createPod"; SpanAddAttributes (podAttributes (pendingNginx "Never"));
       Call_populateEnvironmentVariables (pendingNginx "Never");
       Call_CreatePod (pendingNginx "Never");
       Call_UpdateStatus o';
       match werr with
       | Some err => LogWarn (podLogger (pendingNginx "Never")) err "Failed to update pod status"
       | None => SpanAnnotate [] "Updated k8s pod status"
       end;
       SpanSetStatus (Status_of StatusCodeUnknown "backend unavailable");
       SpanEnd "createPod"].
Proof.
  apply (createPod_provider_failure (scripted providerDown) 0%nat
           (boot [pendingNginx "Never"] 0) (pendingNginx "Never") (pendingNginx "Never")
           0 errInternal 0);
    reflexivity.
Defined.



(** ** updatePodStatus *)

Section UpdatePodStatus.
Context {Σ : Type} (s : Env Σ).
Implicit Types (st : St Σ) (pod : ptr) (o : corev1_Pod).
Implicit Types (cs : list corev1_ContainerStatus).

Lemma clockAfter_S k σ :
  clockAfter s (S k) σ = clockAfter s k (snd (time_Now s σ)).
Proof. unfold clockAfter. by rewrite Nat.iter_succ_r. Qed.

Lemma nowAfter_S k σ : nowAfter s (S k) σ = nowAfter s k (snd (time_Now s σ)).
Proof. unfold nowAfter. by rewrite clockAfter_S. Qed.

Lemma set_ContainerStatuses_same o :
  set_ContainerStatuses (ContainerStatuses (Status o)) o = o.
Proof. by destruct o as [? ? []]. Qed.

(** The loop over the container statuses, when every entry from [i] on has a
    Running state: entries below [i] stay, the others are rewritten, each
    with its own reading of the clock. *)
Lemma range_ContainerStatuses_run pod n : ∀ i st o,
  heap st !! pod = Some o →
  length (ContainerStatuses (Status o)) = (i + n)%nat →
  (∀ j c, (i ≤ j)%nat → ContainerStatuses (Status o) !! j = Some c →
          is_Some (Running (State c))) →
  ∃ cs',
    range_ContainerStatuses s pod n i st =
      (Val tt, Build_St (<[pod:=set_ContainerStatuses cs' o]> (heap st))
                 (clockAfter s n (env st)) (events st)) ∧
    length cs' = length (ContainerStatuses (Status o)) ∧
    ∀ j c, ContainerStatuses (Status o) !! j = Some c →
      cs' !! j = Some (if decide (j < i)%nat then c
                       else notFoundContainer (nowAfter s (j - i) (env st)) c).
Proof.
  induction n as [|n IH]; intros i st o Hpod Hlen Hrun.
  - exists (ContainerStatuses (Status o)). split.
    + simpl. unfold ret. rewrite set_ContainerStatuses_same.
      rewrite list_insert_id by done. by destruct st.
    + split; [done|]. intros j c Hj.
      apply lookup_lt_Some in Hj as Hlt. case_decide; [done|lia].
  - assert (is_Some (ContainerStatuses (Status o) !! i)) as [c Hc].
    { apply lookup_lt_is_Some. lia. }
    destruct (Hrun i c (Nat.le_refl i) Hc) as [running Hrunning].
    destruct (time_Now s (env st)) as [now σ1] eqn:Hnow.
    set (o1 := alter_ContainerStatus i (set_State_Running None)
                 (alter_ContainerStatus i
                    (set_State_Terminated (Some (notFoundTerminated now running c))) o)).
    set (st1 := Build_St (<[pod:=o1]> (heap st)) σ1 (events st)).
    assert (range_ContainerStatuses s pod (S n) i st
            = range_ContainerStatuses s pod n (S i) st1) as Hstep.
    { simpl. go_run. done. }
    assert (heap st1 !! pod = Some o1) as Hpod1 by (by eapply lookup_insert_heap).
    assert (∀ j, j ≠ i → ContainerStatuses (Status o1) !! j
                         = ContainerStatuses (Status o) !! j) as Hother.
    { intros j Hj. simpl. by rewrite !list_lookup_alter_ne. }
    assert (ContainerStatuses (Status o1) !! i = Some (notFoundContainer now c)) as Hi.
    { simpl. rewrite !list_lookup_alter_eq, Hc. simpl.
      unfold notFoundContainer. by rewrite Hrunning. }
    destruct (IH (S i) st1 o1 Hpod1) as (cs' & Heq & Hlen' & Hcs').
    { simpl. rewrite !length_alter. lia. }
    { intros j c' Hle Hj. rewrite Hother in Hj by lia. eapply Hrun; [|done]. lia. }
    exists cs'. split; [|split].
    + rewrite Hstep, Heq, clockAfter_S, Hnow. subst st1. cbn [heap env events snd].
      by rewrite list_insert_insert_eq.
    + rewrite Hlen'. simpl. by rewrite !length_alter.
    + intros j c' Hj. destruct (decide (j = i)) as [->|Hne].
      * rewrite Hc in Hj. injection Hj as <-.
        rewrite (Hcs' i _ Hi). repeat case_decide; try lia.
        replace (i - i)%nat with 0%nat by lia.
        unfold nowAfter, clockAfter. simpl. by rewrite Hnow.
      * rewrite <- Hother in Hj by done. rewrite (Hcs' j _ Hj).
        repeat case_decide; try lia; [done|].
        replace (j - i)%nat with (S (j - S i)) by lia.
        by rewrite nowAfter_S, Hnow.
Qed.

(** The same loop when some entry from [i] on has no Running state: the
    read of [c.State.Running.StartedAt] panics. *)
Lemma range_ContainerStatuses_panics pod n : ∀ i st o,
  heap st !! pod = Some o →
  length (ContainerStatuses (Status o)) = (i + n)%nat →
  (∃ j c, (i ≤ j)%nat ∧ ContainerStatuses (Status o) !! j = Some c ∧
          Running (State c) = None) →
  ∃ st', range_ContainerStatuses s pod n i st = (Panic nilDeref, st').
Proof.
  induction n as [|n IH]; intros i st o Hpod Hlen (j & c & Hle & Hj & Hnil).
  - apply lookup_lt_Some in Hj. lia.
  - assert (is_Some (ContainerStatuses (Status o) !! i)) as [ci Hci].
    { apply lookup_lt_is_Some. lia. }
    destruct (time_Now s (env st)) as [now σ1] eqn:Hnow.
    destruct (Running (State ci)) as [running|] eqn:Hrunning.
    + set (o1 := alter_ContainerStatus i (set_State_Running None)
                   (alter_ContainerStatus i
                      (set_State_Terminated (Some (notFoundTerminated now running ci))) o)).
      set (st1 := Build_St (<[pod:=o1]> (heap st)) σ1 (events st)).
      assert (range_ContainerStatuses s pod (S n) i st
              = range_ContainerStatuses s pod n (S i) st1) as ->.
      { simpl. go_run. done. }
      assert (j ≠ i) by (intros ->; congruence).
      apply (IH (S i) st1 o1).
      * by eapply lookup_insert_heap.
      * simpl. rewrite !length_alter. lia.
      * exists j, c. split; [lia|]. split; [|done].
        simpl. by rewrite !list_lookup_alter_ne.
    + eexists. simpl. go_run. done.
Qed.

(** Lines 128-132. *)
Lemma updatePodStatus_run_terminal pod st o :
  heap st !! pod = Some o →
  isTerminal o = true →
  updatePodStatus s pod st =
    (Val None,
     Build_St (heap st) (env st)
       (events st ++
        [SpanStart "updatePodStatus"; SpanAddAttributes (podAttributes o);
         SpanEnd "updatePodStatus"])).
Proof.
  intros Hpod Hterm. unfold updatePodStatus. go_run.
  by rewrite <- !app_assoc.
Qed.

(** Lines 134-138. *)
Lemma updatePodStatus_run_GetPodStatus_error pod st o status err σ1 :
  heap st !! pod = Some o →
  isTerminal o = false →
  provider_GetPodStatus s (Namespace (ObjectMeta o)) (Name (ObjectMeta o)) (env st)
    = ((status, Some err), σ1) →
  updatePodStatus s pod st =
    (Val (Some (pkgerrors_Wrap err "error retreiving pod status")),
     Build_St (heap st) σ1
       (events st ++
        [SpanStart "updatePodStatus"; SpanAddAttributes (podAttributes o);
         Call_GetPodStatus (Namespace (ObjectMeta o)) (Name (ObjectMeta o));
         SpanSetStatus (Status_FromError err);
         SpanEnd "updatePodStatus"])).
Proof.
  intros Hpod Hterm Hget. unfold updatePodStatus. go_run.
  by rewrite <- !app_assoc.
Qed.

(** Lines 141-142, then the write of lines 165-174. *)
Lemma updatePodStatus_run_status pod st o status σ1 werr σ2 :
  heap st !! pod = Some o →
  isTerminal o = false →
  provider_GetPodStatus s (Namespace (ObjectMeta o)) (Name (ObjectMeta o)) (env st)
    = ((Some status, None), σ1) →
  k8sClient_UpdateStatus s (set_Status status o) σ1 = (werr, σ2) →
  updatePodStatus s pod st =
    (Val (statusWriteResult werr),
     Build_St (<[pod:=set_Status status o]> (heap st)) σ2
       (events st ++
        [SpanStart "updatePodStatus"; SpanAddAttributes (podAttributes o);
         Call_GetPodStatus (Namespace (ObjectMeta o)) (Name (ObjectMeta o));
         Call_UpdateStatus (set_Status status o);
         statusWriteTail (set_Status status o) werr;
         SpanEnd "updatePodStatus"])).
Proof.
  intros Hpod Hterm Hget Hwrite. unfold updatePodStatus. go_run.
  destruct werr; go_run; by rewrite <- !app_assoc.
Qed.

(** Lines 143-146 with the condition false, then the write. *)
Lemma updatePodStatus_run_young pod st o σ1 σ2 werr σ3 :
  heap st !! pod = Some o →
  isTerminal o = false →
  provider_GetPodStatus s (Namespace (ObjectMeta o)) (Name (ObjectMeta o)) (env st)
    = ((None, None), σ1) →
  wasUpOrIsOld s o σ1 = (false, σ2) →
  k8sClient_UpdateStatus s o σ2 = (werr, σ3) →
  updatePodStatus s pod st =
    (Val (statusWriteResult werr),
     Build_St (heap st) σ3
       (events st ++
        [SpanStart "updatePodStatus"; SpanAddAttributes (podAttributes o);
         Call_GetPodStatus (Namespace (ObjectMeta o)) (Name (ObjectMeta o));
         Call_UpdateStatus o;
         statusWriteTail o werr;
         SpanEnd "updatePodStatus"])).
Proof.
  intros Hpod Hterm Hget Hold Hwrite. unfold updatePodStatus. go_run.
  destruct werr; go_run; by rewrite <- !app_assoc.
Qed.

(** Lines 146-162 with every container status Running, then the write. *)
Lemma updatePodStatus_run_lost pod st o σ1 σ2 :
  heap st !! pod = Some o →
  isTerminal o = false →
  provider_GetPodStatus s (Namespace (ObjectMeta o)) (Name (ObjectMeta o)) (env st)
    = ((None, None), σ1) →
  wasUpOrIsOld s o σ1 = (true, σ2) →
  Forall (λ c, is_Some (Running (State c))) (ContainerStatuses (Status o)) →
  ∃ cs',
    length cs' = length (ContainerStatuses (Status o)) ∧
    (∀ j c, ContainerStatuses (Status o) !! j = Some c →
       cs' !! j = Some (notFoundContainer (nowAfter s j σ2) c)) ∧
    ∀ werr σ3,
      k8sClient_UpdateStatus s (set_ContainerStatuses cs' (notFoundPod o))
        (clockAfter s (length (ContainerStatuses (Status o))) σ2) = (werr, σ3) →
      updatePodStatus s pod st =
        (Val (statusWriteResult werr),
         Build_St (<[pod:=set_ContainerStatuses cs' (notFoundPod o)]> (heap st)) σ3
           (events st ++
            [SpanStart "updatePodStatus"; SpanAddAttributes (podAttributes o);
             Call_GetPodStatus (Namespace (ObjectMeta o)) (Name (ObjectMeta o));
             Call_UpdateStatus (set_ContainerStatuses cs' (notFoundPod o));
             statusWriteTail (set_ContainerStatuses cs' (notFoundPod o)) werr;
             SpanEnd "updatePodStatus"])).
Proof.
  intros Hpod Hterm Hget Hold Hrun.
  set (st1 := Build_St (<[pod:=notFoundPod o]> (heap st)) σ2
                (((events st ++ [SpanStart "updatePodStatus"]) ++
                  [SpanAddAttributes (podAttributes o)]) ++
                 [Call_GetPodStatus (Namespace (ObjectMeta o)) (Name (ObjectMeta o))])).
  destruct (range_ContainerStatuses_run pod (length (ContainerStatuses (Status o)))
              0%nat st1 (notFoundPod o)) as (cs' & Hloop & Hlen & Hcs').
  { by eapply lookup_insert_heap. }
  { done. }
  { intros j c _ Hj. rewrite Forall_lookup in Hrun. by eapply Hrun. }
  exists cs'. split; [done|]. split.
  { intros j c Hj. rewrite (Hcs' j c Hj). case_decide; [lia|].
    by rewrite Nat.sub_0_r. }
  intros werr σ3 Hwrite. unfold updatePodStatus. go_run.
  match goal with
  | |- context [range_ContainerStatuses s pod ?n 0%nat ?st0] =>
      change (range_ContainerStatuses s pod n 0%nat st0)
        with (range_ContainerStatuses s pod (length (ContainerStatuses (Status o)))
                0%nat st1)
  end.
  rewrite Hloop. go_run.
  destruct werr; go_run; by rewrite <- !app_assoc.
Qed.

(** Lines 146-162 with a container status that is not Running. *)
Lemma updatePodStatus_run_lost_panics pod st o σ1 σ2 :
  heap st !! pod = Some o →
  isTerminal o = false →
  provider_GetPodStatus s (Namespace (ObjectMeta o)) (Name (ObjectMeta o)) (env st)
    = ((None, None), σ1) →
  wasUpOrIsOld s o σ1 = (true, σ2) →
  Exists (λ c, Running (State c) = None) (ContainerStatuses (Status o)) →
  ∃ st', updatePodStatus s pod st = (Panic nilDeref, st').
Proof.
  intros Hpod Hterm Hget Hold Hex.
  set (st1 := Build_St (<[pod:=notFoundPod o]> (heap st)) σ2
                (((events st ++ [SpanStart "updatePodStatus"]) ++
                  [SpanAddAttributes (podAttributes o)]) ++
                 [Call_GetPodStatus (Namespace (ObjectMeta o)) (Name (ObjectMeta o))])).
  destruct (range_ContainerStatuses_panics pod (length (ContainerStatuses (Status o)))
              0%nat st1 (notFoundPod o)) as (st' & Hloop).
  { by eapply lookup_insert_heap. }
  { done. }
  { apply Exists_exists in Hex as (c & Hin & Hnil).
    apply list_elem_of_lookup in Hin as [j Hj].
    exists j, c. split; [lia|]. by split. }
  unfold updatePodStatus. go_run.
  match goal with
  | |- context [range_ContainerStatuses s pod ?n 0%nat ?st0] =>
      change (range_ContainerStatuses s pod n 0%nat st0)
        with (range_ContainerStatuses s pod (length (ContainerStatuses (Status o)))
                0%nat st1)
  end.
  rewrite Hloop. by eexists.
Qed.

(** The loop over the container statuses, however it ends: it writes
    container statuses of the pod only, and logs nothing. *)
Lemma range_ContainerStatuses_shape pod n : ∀ i st o,
  heap st !! pod = Some o →
  ∃ r cs' σ',
    range_ContainerStatuses s pod n i st =
      (r, Build_St (<[pod:=set_ContainerStatuses cs' o]> (heap st)) σ' (events st)).
Proof.
  induction n as [|n IH]; intros i st o Hpod.
  - exists (Val tt), (ContainerStatuses (Status o)), (env st).
    simpl. unfold ret. rewrite set_ContainerStatuses_same.
    rewrite list_insert_id by done. by destruct st.
  - destruct (ContainerStatuses (Status o) !! i) as [c|] eqn:Hc.
    + destruct (time_Now s (env st)) as [now σ1] eqn:Hnow.
      destruct (Running (State c)) as [running|] eqn:Hrunning.
      * set (o1 := alter_ContainerStatus i (set_State_Running None)
                     (alter_ContainerStatus i
                        (set_State_Terminated (Some (notFoundTerminated now running c))) o)).
        set (st1 := Build_St (<[pod:=o1]> (heap st)) σ1 (events st)).
        assert (range_ContainerStatuses s pod (S n) i st
                = range_ContainerStatuses s pod n (S i) st1) as ->.
        { simpl. go_run. done. }
        destruct (IH (S i) st1 o1) as (r & cs' & σ' & Heq).
        { by eapply lookup_insert_heap. }
        exists r, cs', σ'. rewrite Heq. subst st1. cbn [heap env events].
        by rewrite list_insert_insert_eq.
      * exists (Panic nilDeref), (ContainerStatuses (Status o)), σ1.
        simpl. go_run. rewrite set_ContainerStatuses_same.
        by rewrite list_insert_id.
    + exists (Panic "runtime error: index out of range"),
        (ContainerStatuses (Status o)), (env st).
      simpl. go_run. rewrite set_ContainerStatuses_same.
      rewrite list_insert_id by done. by destruct st.
Qed.

(** updatePodStatus on a nil pointer: addPodAttributes panics. *)
Lemma updatePodStatus_run_nil pod st :
  heap st !! pod = None →
  updatePodStatus s pod st =
    (Panic nilDeref,
     Build_St (heap st) (env st)
       (events st ++ [SpanStart "updatePodStatus"; SpanEnd "updatePodStatus"])).
Proof.
  intros Hpod. unfold updatePodStatus. go_run. by rewrite <- !app_assoc.
Qed.

(** Every run of updatePodStatus on a live pod: what it may write, and what
    it logs. *)
Lemma updatePodStatus_cases pod st o :
  heap st !! pod = Some o →
  ∃ r o' σ' mid,
    updatePodStatus s pod st =
      (r, Build_St (<[pod:=o']> (heap st)) σ'
            (events st ++
             [SpanStart "updatePodStatus"; SpanAddAttributes (podAttributes o)] ++
             mid ++ [SpanEnd "updatePodStatus"])) ∧
    ObjectMeta o' = ObjectMeta o ∧
    Spec o' = Spec o ∧
    podsStarted mid = [] ∧
    ((isTerminal o = true ∧ r = Val None ∧ o' = o ∧ σ' = env st ∧ mid = []) ∨
     (isTerminal o = false ∧
      ∃ status err σ1,
        provider_GetPodStatus s (Namespace (ObjectMeta o)) (Name (ObjectMeta o)) (env st)
          = ((status, Some err), σ1) ∧
        (∃ e, r = Val (Some e)) ∧ o' = o) ∨
     (isTerminal o = false ∧
      ∃ status σ1,
        provider_GetPodStatus s (Namespace (ObjectMeta o)) (Name (ObjectMeta o)) (env st)
          = ((Some status, None), σ1) ∧
        (∃ w, r = Val w) ∧ o' = set_Status status o) ∨
     (isTerminal o = false ∧
      ∃ σ1 σ2,
        provider_GetPodStatus s (Namespace (ObjectMeta o)) (Name (ObjectMeta o)) (env st)
          = ((None, None), σ1) ∧
        wasUpOrIsOld s o σ1 = (false, σ2) ∧
        (∃ w, r = Val w) ∧ o' = o) ∨
     (isTerminal o = false ∧
      ∃ σ1 σ2 cs',
        provider_GetPodStatus s (Namespace (ObjectMeta o)) (Name (ObjectMeta o)) (env st)
          = ((None, None), σ1) ∧
        wasUpOrIsOld s o σ1 = (true, σ2) ∧
        o' = set_ContainerStatuses cs' (notFoundPod o))).
Proof.
  intros Hpod.
  destruct (isTerminal o) eqn:Hterm.
  { exists (Val None), o, (env st), [].
    rewrite (updatePodStatus_run_terminal pod st o Hpod Hterm).
    rewrite list_insert_id by done. repeat split; try done. by left. }
  destruct (provider_GetPodStatus s (Namespace (ObjectMeta o)) (Name (ObjectMeta o)) (env st))
    as [[status [err|]] σ1] eqn:Hget.
  { eexists _, o, σ1, [_; _].
    rewrite (updatePodStatus_run_GetPodStatus_error pod st o status err σ1 Hpod Hterm Hget).
    rewrite list_insert_id by done. repeat split; try done.
    right; left. split; [done|]. exists status, err, σ1. eauto. }
  destruct status as [status|].
  { destruct (k8sClient_UpdateStatus s (set_Status status o) σ1) as [werr σ2] eqn:Hwrite.
    eexists _, (set_Status status o), σ2, [_; _; _].
    rewrite (updatePodStatus_run_status pod st o status σ1 werr σ2 Hpod Hterm Hget Hwrite).
    repeat split; try done.
    { by destruct werr. }
    right; right; left. split; [done|]. exists status, σ1. eauto. }
  destruct (wasUpOrIsOld s o σ1) as [[|] σ2] eqn:Hold.
  2: { destruct (k8sClient_UpdateStatus s o σ2) as [werr σ3] eqn:Hwrite.
       eexists _, o, σ3, [_; _; _].
       rewrite (updatePodStatus_run_young pod st o σ1 σ2 werr σ3
                  Hpod Hterm Hget Hold Hwrite).
       rewrite list_insert_id by done. repeat split; try done.
       { by destruct werr. }
       right; right; right; left. split; [done|]. exists σ1, σ2. eauto. }
  set (st1 := Build_St (<[pod:=notFoundPod o]> (heap st)) σ2
                (((events st ++ [SpanStart "updatePodStatus"]) ++
                  [SpanAddAttributes (podAttributes o)]) ++
                 [Call_GetPodStatus (Namespace (ObjectMeta o)) (Name (ObjectMeta o))])).
  destruct (range_ContainerStatuses_shape pod (length (ContainerStatuses (Status o)))
              0%nat st1 (notFoundPod o)) as (rl & cs' & σ3 & Hloop).
  { by eapply lookup_insert_heap. }
  assert (∃ r σ' mid,
            updatePodStatus s pod st =
              (r, Build_St (<[pod:=set_ContainerStatuses cs' (notFoundPod o)]> (heap st)) σ'
                    (events st ++
                     [SpanStart "updatePodStatus"; SpanAddAttributes (podAttributes o)] ++
                     mid ++ [SpanEnd "updatePodStatus"])) ∧
            podsStarted mid = []) as (r & σ' & mid & Heq & Hmid).
  { unfold updatePodStatus. go_run.
    match goal with
    | |- context [range_ContainerStatuses s pod ?n 0%nat ?st0] =>
        change (range_ContainerStatuses s pod n 0%nat st0)
          with (range_ContainerStatuses s pod (length (ContainerStatuses (Status o)))
                  0%nat st1)
    end.
    rewrite Hloop. subst st1. cbn [heap env events]. rewrite list_insert_insert_eq.
    destruct rl as [[]|msg].
    - go_run.
      destruct (k8sClient_UpdateStatus s (set_ContainerStatuses cs' (notFoundPod o)) σ3)
        as [[werr|] σ4] eqn:Hwrite; go_run.
      + eexists _, _, [_; _; _]. split; [by rewrite <- !app_assoc|done].
      + eexists _, _, [_; _; _]. split; [by rewrite <- !app_assoc|done].
    - go_run. eexists _, _, [_]. split; [by rewrite <- !app_assoc|done]. }
  exists r, (set_ContainerStatuses cs' (notFoundPod o)), σ', mid.
  split; [done|]. repeat split; try done.
  right; right; right; right. split; [done|]. exists σ1, σ2, cs'. eauto.
Qed.

(** Line 146, as a proposition. *)
Lemma wasUpOrIsOld_true o σ :
  fst (wasUpOrIsOld s o σ) = true ↔
  Phase (Status o) = corev1_PodRunning ∨
  CreationTimestamp (ObjectMeta o) + time_Minute < fst (time_Now s σ).
Proof.
  unfold wasUpOrIsOld.
  destruct (String.eqb_spec (Phase (Status o)) corev1_PodRunning) as [Heq|Hne].
  - simpl. tauto.
  - destruct (time_Now s σ) as [now σ']. simpl.
    unfold Time_Before, Time_Add. rewrite Z.ltb_lt. tauto.
Qed.

Lemma isTerminal_false o :
  isTerminal o = false →
  Phase (Status o) ≠ corev1_PodSucceeded ∧ Phase (Status o) ≠ corev1_PodFailed ∧
  Reason (Status o) ≠ podStatusReasonProviderFailed.
Proof.
  unfold isTerminal. rewrite !orb_false_iff, !String.eqb_neq. tauto.
Qed.

Lemma isTerminal_true o :
  isTerminal o = true ↔
  Phase (Status o) = corev1_PodSucceeded ∨ Phase (Status o) = corev1_PodFailed ∨
  Reason (Status o) = podStatusReasonProviderFailed.
Proof.
  unfold isTerminal. rewrite !orb_true_iff, !String.eqb_eq. tauto.
Qed.

End UpdatePodStatus.

(** C3, as amended.  For a pod that is not terminal, for which
    Provider.GetPodStatus returns a nil status and no error, and whose
    container statuses all have a Running state: updatePodStatus sets the
    phase to Failed if and only if the phase was Running or more than one
    minute has passed since the creation timestamp; otherwise it leaves the
    pod as it is.  When it does, the reason is NotFound, the message says
    that the pod may have been deleted, and every entry of the pod's
    container statuses (the loop runs over Status.ContainerStatuses, not over
    the containers declared in the spec) has Running cleared and Terminated
    set with exit code -137, reason NotFound, finished-at the reading of the
    clock taken for that entry, started-at the one of its Running state, and
    its own container identifier. *)
Theorem updatePodStatus_status_not_found {Σ} (s : Env Σ) pod st o σ1 :
  heap st !! pod = Some o →
  isTerminal o = false →
  provider_GetPodStatus s (Namespace (ObjectMeta o)) (Name (ObjectMeta o)) (env st)
    = ((None, None), σ1) →
  Forall (λ c, is_Some (Running (State c))) (ContainerStatuses (Status o)) →
  ∃ r st' o',
    updatePodStatus s pod st = (Val r, st') ∧
    heap st' = <[pod:=o']> (heap st) ∧
    (Phase (Status o') = corev1_PodFailed ↔
       Phase (Status o) = corev1_PodRunning ∨
       CreationTimestamp (ObjectMeta o) + time_Minute < fst (time_Now s σ1)) ∧
    (Phase (Status o') ≠ corev1_PodFailed → o' = o) ∧
    (Phase (Status o') = corev1_PodFailed →
       Reason (Status o') = "NotFound" ∧
       Message (Status o') = notFoundPodMessage ∧
       ObjectMeta o' = ObjectMeta o ∧
       Spec o' = Spec o ∧
       length (ContainerStatuses (Status o')) = length (ContainerStatuses (Status o)) ∧
       ∀ i c, ContainerStatuses (Status o) !! i = Some c →
         ∃ c' running,
           ContainerStatuses (Status o') !! i = Some c' ∧
           Running (State c) = Some running ∧
           State c' =
             {| Waiting := Waiting (State c);
                Running := None;
                Terminated :=
                  Some {| ExitCode := -137;
                          Signal := 0;
                          Terminated_Reason := "NotFound";
                          Terminated_Message := notFoundContainerMessage;
                          Terminated_StartedAt := StartedAt running;
                          FinishedAt := nowAfter s i (snd (wasUpOrIsOld s o σ1));
                          Terminated_ContainerID := ContainerID c |} |} ∧
           ContainerStatus_Name c' = ContainerStatus_Name c ∧
           ContainerID c' = ContainerID c).
Proof.
  intros Hpod Hterm Hget Hrun.
  pose proof (wasUpOrIsOld_true s o σ1) as Hcond.
  destruct (isTerminal_false o Hterm) as (_ & Hnotfailed & _).
  destruct (wasUpOrIsOld s o σ1) as [gone σ2] eqn:Hold. simpl in Hcond.
  destruct gone.
  - destruct (updatePodStatus_run_lost s pod st o σ1 σ2 Hpod Hterm Hget Hold Hrun)
      as (cs' & Hlen & Hcs' & Hrunlost).
    destruct (k8sClient_UpdateStatus s (set_ContainerStatuses cs' (notFoundPod o))
                (clockAfter s (length (ContainerStatuses (Status o))) σ2))
      as [werr σ3] eqn:Hwrite.
    eexists _, _, (set_ContainerStatuses cs' (notFoundPod o)).
    split; [by apply Hrunlost|]. simpl.
    split; [done|]. split; [tauto|]. split; [done|].
    intros _. repeat split; try done.
    intros i c Hi.
    rewrite Forall_lookup in Hrun. destruct (Hrun i c Hi) as [running Hrunning].
    exists (notFoundContainer (nowAfter s i σ2) c), running.
    split; [by apply Hcs'|]. split; [done|].
    unfold notFoundContainer. rewrite Hrunning. done.
  - destruct (k8sClient_UpdateStatus s o σ2) as [werr σ3] eqn:Hwrite.
    eexists _, _, o.
    split; [by eapply updatePodStatus_run_young|]. simpl.
    split; [by rewrite list_insert_id|].
    split; [|done].
    split; [done|]. intros Hc. apply Hcond in Hc. discriminate.
Qed.

Lemma updatePodStatus_status_not_found_witness :
  ∃ r st' o',
    updatePodStatus (scripted quiet) 0%nat (boot [runningNginx] (30 * second)) = (Val r, st') ∧
    heap st' = [o'] ∧
    Phase (Status o') = "Failed" ∧
    Reason (Status o') = "NotFound" ∧
    ∃ c', ContainerStatuses (Status o') !! 0%nat = Some c' ∧
          Running (State c') = None ∧
          Terminated (State c') =
            Some {| ExitCode := -137;
                    Signal := 0;
                    Terminated_Reason := "NotFound";
                    Terminated_Message := notFoundContainerMessage;
                    Terminated_StartedAt := 5 * second;
                    FinishedAt := 30 * second;
                    Terminated_ContainerID := "mock://web" |}.
Proof.
  destruct (updatePodStatus_status_not_found (scripted quiet) 0%nat
              (boot [runningNginx] (30 * second)) runningNginx (30 * second))
    as (r & st' & o' & Hrun & Hheap & Hiff & _ & Hfailed).
  - reflexivity.
  - reflexivity.
  - reflexivity.
  - repeat constructor. by eexists.
  - assert (Phase (Status o') = corev1_PodFailed) as Hphase.
    { apply Hiff. left. reflexivity. }
    destruct (Hfailed Hphase) as (Hreason & _ & _ & _ & _ & Hcs).
    destruct (Hcs 0%nat (runningContainer "web" (5 * second)) eq_refl)
      as (c' & running & Hc' & Hrunning & Hstate & _).
    injection Hrunning as <-.
    exists r, st', o'. repeat split; try done.
    exists c'. split; [done|]. by rewrite Hstate.
Defined.

(** C3 as stated fails: a pod declaring the container web, with no container
    status yet and older than one minute, is set to Failed, and no container
    status of it is Terminated. *)
Lemma updatePodStatus_declared_container_not_terminated :
  isTerminal (pendingNginx "Always") = false ∧
  fst (provider_GetPodStatus (scripted quiet) "default" "nginx" (90 * second)) = (None, None) ∧
  ∃ o',
    heap (snd (updatePodStatus (scripted quiet) 0%nat
                 (boot [pendingNginx "Always"] (90 * second)))) !! 0%nat = Some o' ∧
    Phase (Status o') = corev1_PodFailed ∧
    ¬ ∀ d, d ∈ Containers (Spec o') →
        ∃ c' t, c' ∈ ContainerStatuses (Status o') ∧
                ContainerStatus_Name c' = Container_Name d ∧
                Terminated (State c') = Some t ∧ ExitCode t = -137.
Proof.
  split; [reflexivity|]. split; [reflexivity|].
  eexists. split; [reflexivity|]. split; [reflexivity|].
  intros Hall.
  destruct (Hall {| Container_Name := "web"; Container_Image := "nginx:1.15" |})
    as (c' & t & Hin & _).
  - simpl. apply elem_of_cons. by left.
  - simpl in Hin. by apply elem_of_nil in Hin.
Qed.

(** C9.  On the path of updatePodStatus that sets the pod to Failed after a
    nil status, the loop reads [c.State.Running.StartedAt] of every entry of
    the container statuses: the call returns when every entry has a Running
    state, and panics on a nil pointer exactly when some entry has none. *)
Theorem updatePodStatus_nil_Running_panics {Σ} (s : Env Σ) pod st o σ1 :
  heap st !! pod = Some o →
  isTerminal o = false →
  provider_GetPodStatus s (Namespace (ObjectMeta o)) (Name (ObjectMeta o)) (env st)
    = ((None, None), σ1) →
  fst (wasUpOrIsOld s o σ1) = true →
  (Forall (λ c, is_Some (Running (State c))) (ContainerStatuses (Status o)) →
   ∃ r st', updatePodStatus s pod st = (Val r, st')) ∧
  ((∃ st', updatePodStatus s pod st = (Panic nilDeref, st')) ↔
   Exists (λ c, Running (State c) = None) (ContainerStatuses (Status o))).
Proof.
  intros Hpod Hterm Hget Hgone.
  destruct (wasUpOrIsOld s o σ1) as [gone σ2] eqn:Hold. simpl in Hgone. subst gone.
  assert (Forall (λ c, is_Some (Running (State c))) (ContainerStatuses (Status o)) →
          ∃ r st', updatePodStatus s pod st = (Val r, st')) as Hreturns.
  { intros Hrun.
    destruct (updatePodStatus_run_lost s pod st o σ1 σ2 Hpod Hterm Hget Hold Hrun)
      as (cs' & _ & _ & Hrunlost).
    destruct (k8sClient_UpdateStatus s (set_ContainerStatuses cs' (notFoundPod o))
                (clockAfter s (length (ContainerStatuses (Status o))) σ2))
      as [werr σ3] eqn:Hwrite.
    eexists _, _. by apply Hrunlost. }
  split; [done|]. split.
  - intros [st' Hpanic].
    destruct (Forall_Exists_dec (λ c, is_Some (Running (State c)))
                (λ c, Running (State c) = None)
                (λ c, match Running (State c) as x
                        return {is_Some x} + {x = None} with
                      | Some r => left (ex_intro _ r eq_refl)
                      | None => right eq_refl
                      end)
                (ContainerStatuses (Status o))) as [Hall|Hex]; [|done].
    destruct (Hreturns Hall) as (r & st'' & Hval). congruence.
  - by eapply updatePodStatus_run_lost_panics.
Qed.

Lemma updatePodStatus_nil_Running_panics_witness :
  ∃ st', updatePodStatus (scripted quiet) 0%nat (boot [creatingNginx] (90 * second))
         = (Panic nilDeref, st').
Proof.
  apply (updatePodStatus_nil_Running_panics (scripted quiet) 0%nat
           (boot [creatingNginx] (90 * second)) creatingNginx (90 * second)).
  - reflexivity.
  - reflexivity.
  - reflexivity.
  - reflexivity.
  - apply Exists_cons_hd. reflexivity.
Defined.

(** ** updatePodStatuses *)

Section Sweeps.
Context {Σ : Type} (s : Env Σ).
Implicit Types (st : St Σ) (pod : ptr) (o : corev1_Pod) (pods : list ptr).

(** One iteration of the loop of lines 108-120. *)
Lemma range_pods_cons pod rest st :
  range_pods s (pod :: rest) st =
    match ctx_Err s (env st) with
    | (Some e, σ1) =>
        (Val Returned,
         Build_St (heap st) σ1 (events st ++ [SpanAnnotate [] (Error e)]))
    | (None, σ1) =>
        match updatePodStatus s pod (Build_St (heap st) σ1 (events st)) with
        | (Val None, st1) => range_pods s rest st1
        | (Val (Some err), st1) =>
            match heap st1 !! pod with
            | Some o1 =>
                range_pods s rest
                  (Build_St (heap st1) (env st1)
                     (events st1 ++ [LogError (sweepLogger o1) err]))
            | None => (Panic nilDeref, st1)
            end
        | (Panic msg, st1) => (Panic msg, st1)
        end
    end.
Proof.
  simpl. unfold bind at 1. unfold oracle at 1.
  destruct (ctx_Err s (env st)) as [[e|] σ1]; [done|].
  unfold bind at 1.
  destruct (updatePodStatus s pod _) as [[[err|]|msg] st1]; [| |done].
  - unfold bind at 1. unfold bind at 1, deref at 1.
    destruct (heap st1 !! pod) as [o1|]; [|done]. by destruct st1.
  - unfold bind at 1, ret at 1. done.
Qed.

(** updatePodStatus writes no pod but its own. *)
Lemma updatePodStatus_frame pod st q :
  q ≠ pod →
  heap (snd (updatePodStatus s pod st)) !! q = heap st !! q.
Proof.
  intros Hq. destruct (heap st !! pod) as [o|] eqn:Hpod.
  - destruct (updatePodStatus_cases s pod st o Hpod) as (r & o' & σ' & mid & -> & _).
    simpl. by apply list_lookup_insert_ne.
  - by rewrite (updatePodStatus_run_nil s pod st Hpod).
Qed.

Lemma updatePodStatus_keeps_terminal pod st o q :
  heap st !! pod = Some o →
  isTerminal o = true →
  heap (snd (updatePodStatus s q st)) !! pod = Some o.
Proof.
  intros Hpod Hterm. destruct (decide (pod = q)) as [<-|Hne].
  - by rewrite (updatePodStatus_run_terminal s pod st o Hpod Hterm).
  - by rewrite updatePodStatus_frame.
Qed.

Lemma range_pods_keeps_terminal pod o pods : ∀ st,
  heap st !! pod = Some o →
  isTerminal o = true →
  heap (snd (range_pods s pods st)) !! pod = Some o.
Proof.
  induction pods as [|q rest IH]; intros st Hpod Hterm; [done|].
  rewrite range_pods_cons.
  destruct (ctx_Err s (env st)) as [[e|] σ1]; [done|].
  pose proof (updatePodStatus_keeps_terminal pod (Build_St (heap st) σ1 (events st)) o q
                Hpod Hterm) as Hkeep.
  destruct (updatePodStatus s q _) as [[[err|]|msg] st1]; simpl in Hkeep.
  - destruct (heap st1 !! q) as [o1|]; [|done]. by apply IH.
  - by apply IH.
  - done.
Qed.

Lemma updatePodStatuses_keeps_terminal pod o st :
  heap st !! pod = Some o →
  isTerminal o = true →
  heap (snd (updatePodStatuses s st)) !! pod = Some o.
Proof.
  intros Hpod Hterm. unfold updatePodStatuses. go_run.
  destruct (resourceManager_GetPods s (env st)) as [pods σ0]. simpl.
  match goal with
  | |- context [range_pods s pods ?st0] =>
      pose proof (range_pods_keeps_terminal pod o pods st0 Hpod Hterm) as Hkeep;
      destruct (range_pods s pods st0) as [[c|msg] st1]
  end; done.
Qed.

(** Container statuses, phase, reason and message are not part of a pod's
    identity. *)
Lemma podStarted_podAttributes o :
  podStarted (SpanAddAttributes (podAttributes o)) = Some (podIdent o).
Proof. done. Qed.




End Sweeps.

(** C4.  On a pod whose phase is Succeeded or Failed, or whose reason is
    ProviderFailed, updatePodStatus returns nil, leaves the heap and the
    environment as they are (no call to the provider, no write to the
    orchestrator record: the log gains the span only); and after any sequence
    of sweeps and status updates the pod is the same object, phase, reason
    and message included. *)
Theorem updatePodStatus_terminal_noop {Σ} (s : Env Σ) pod st o steps :
  heap st !! pod = Some o →
  Phase (Status o) = corev1_PodSucceeded ∨ Phase (Status o) = corev1_PodFailed ∨
    Reason (Status o) = podStatusReasonProviderFailed →
  updatePodStatus s pod st =
    (Val None,
     Build_St (heap st) (env st)
       (events st ++
        [SpanStart "updatePodStatus"; SpanAddAttributes (podAttributes o);
         SpanEnd "updatePodStatus"])) ∧
  heap (snd (reconcile s steps st)) !! pod = Some o.
Proof.
  intros Hpod Hterm. apply isTerminal_true in Hterm.
  split; [by apply updatePodStatus_run_terminal|].
  revert st Hpod. induction steps as [|[|q] rest IH]; intros st Hpod; [done| |].
  - simpl. unfold bind.
    pose proof (updatePodStatuses_keeps_terminal s pod o st Hpod Hterm) as Hkeep.
    destruct (updatePodStatuses s st) as [[[]|msg] st1]; simpl in Hkeep; [|done].
    by apply IH.
  - simpl. unfold bind.
    pose proof (updatePodStatus_keeps_terminal s pod st o q Hpod Hterm) as Hkeep.
    destruct (updatePodStatus s q st) as [[w|msg] st1]; simpl in Hkeep; [|done].
    by apply IH.
Qed.

Lemma updatePodStatus_terminal_noop_witness :
  updatePodStatus (scripted providerRunning) 0%nat
    (boot [failedNginx; pendingNginx "Always"] 0) =
    (Val None,
     Build_St [failedNginx; pendingNginx "Always"] 0
       ([] ++
        [SpanStart "updatePodStatus"; SpanAddAttributes (podAttributes failedNginx);
         SpanEnd "updatePodStatus"])) ∧
  heap (snd (reconcile (scripted providerRunning) [Sweep; UpdateOne 0%nat; Sweep]
               (boot [failedNginx; pendingNginx "Always"] 0))) !! 0%nat
    = Some failedNginx.
Proof.
  apply (updatePodStatus_terminal_noop (scripted providerRunning) 0%nat
           (boot [failedNginx; pendingNginx "Always"] 0) failedNginx
           [Sweep; UpdateOne 0%nat; Sweep]).
  - reflexivity.
  - right. left. reflexivity.
Defined.



(** Sweeps over two pending pods.  When GetPodStatus fails for both, both
    are started and both errors are logged. *)
Example sweep_logs_errors_and_goes_on :
  let run := updatePodStatuses (scripted providerFlaky)
               (boot [pendingNginx "Always"; pendingNginx "Never"] 0) in
  fst run = Val tt ∧
  podsStarted (events (snd run))
    = [podIdent (pendingNginx "Always"); podIdent (pendingNginx "Never")] ∧
  omap (λ ev, match ev with LogError _ err => Some err | _ => None end)
    (events (snd run))
    = [pkgerrors_Wrap errInternal "error retreiving pod status";
       pkgerrors_Wrap errInternal "error retreiving pod status"].
Proof. repeat split. Qed.

(** When the context is done, no pod is started and no pod changes. *)
Example sweep_stops_on_cancellation :
  let run := updatePodStatuses (scripted cancelled)
               (boot [pendingNginx "Always"; pendingNginx "Never"] 0) in
  fst run = Val tt ∧
  podsStarted (events (snd run)) = [] ∧
  heap (snd run) = [pendingNginx "Always"; pendingNginx "Never"] ∧
  SpanAnnotate [] "context canceled" ∈ events (snd run).
Proof.
  split; [reflexivity|]. split; [reflexivity|]. split; [reflexivity|].
  apply list_elem_of_In. vm_compute. tauto.
Qed.

(** When updatePodStatus panics on the first pod, the second is not
    started. *)
Example sweep_aborted_by_panic :
  let run := updatePodStatuses (scripted quietTwo)
               (boot [creatingNginx; pendingNginx "Never"] (90 * second)) in
  fst run = Panic nilDeref ∧
  podsStarted (events (snd run)) = [podIdent creatingNginx] ∧
  heap (snd run) !! 1%nat = Some (pendingNginx "Never").
Proof. repeat split. Qed.

(** ** Two sweeps in a row *)

Section TwoSweeps.
Context {Σ : Type} (s : Env Σ).
Context (G : string → string → option corev1_PodStatus * option error).
Hypothesis Hfixed : providerFixed s G.
Implicit Types (st : St Σ) (pod : ptr) (o : corev1_Pod) (pods : list ptr).










End TwoSweeps.



